(** * NetworkPolicyPeer conversion between networking/v1 and the internal API

    A shallow embedding of [pkg/apis/networking/v1/conversion.go]: the two
    hand-written conversion functions that sit on top of the generated
    [autoConvert_*] functions and reconcile the deprecated singular field
    [IPBlock] of [v1.NetworkPolicyPeer] with the list field [IPBlocks].

    Go pointers are addresses into a typed heap ([nil] is [None]); the
    conversion functions are computations in a small monad that threads the
    output object and the heap of the output side, and that can panic (nil
    dereference, index out of range).  The Go [error] result is the value
    returned by the computation. *)

From stdpp Require Import base option list gmap strings.

(** ** Go values *)

(** Addresses of heap cells. *)
Abbreviation loc := positive (only parsing).

(** A Go pointer: [nil] or the address of a cell. *)
Abbreviation ptr := (option positive) (only parsing).

(** A Go [error] value carries its message; the nil error is [None]. *)
Abbreviation error := string (only parsing).

(** [len(s) > 0] on a Go string. *)
Definition nonempty (s : string) : bool := 0 <? String.length s.
Arguments nonempty : simpl never.

(** ** The two API versions *)

Module v1.

(** Modelled from the spec: the declaration of [v1.IPBlock] lives in
    [k8s.io/api/networking/v1] and is missing from the sources; the spec
    gives it a single attribute, the address range. *)
Record IPBlock : Type := { CIDR : string }.

(** Modelled from the spec: the declaration of [v1.NetworkPolicyPeer] lives
    in [k8s.io/api/networking/v1] and is missing from the sources; the tests
    show both fields to hold pointers.  The fields are named by their JSON tags:
    [ipBlock] is the Go field [IPBlock *IPBlock] (deprecated, optional),
    [ipBlocks] the Go field [IPBlocks []*IPBlock]. *)
Record NetworkPolicyPeer : Type :=
  { ipBlock : ptr; ipBlocks : list ptr }.

(** The zero value [v1.NetworkPolicyPeer{}]. *)
Definition zero : NetworkPolicyPeer := {| ipBlock := None; ipBlocks := [] |}.

End v1.

Module networking.

(** Modelled from the spec: [networking.IPBlock], declared in
    [pkg/apis/networking], is missing from the sources. *)
Record IPBlock : Type := { CIDR : string }.

(** Modelled from the spec: [networking.NetworkPolicyPeer], declared in
    [pkg/apis/networking], is missing from the sources; it has the list field
    [IPBlocks []*IPBlock] and no singular field. *)
Record NetworkPolicyPeer : Type := { IPBlocks : list ptr }.

(** The zero value [networking.NetworkPolicyPeer{}]. *)
Definition zero : NetworkPolicyPeer := {| IPBlocks := [] |}.

End networking.

Global Instance v1_IPBlock_eq_dec : EqDecision v1.IPBlock.
Proof. solve_decision. Defined.
Global Instance networking_IPBlock_eq_dec : EqDecision networking.IPBlock.
Proof. solve_decision. Defined.

(** ** Memory *)

(** [*p] for a pointer [p] into the cells [m]: [None] when [p] is nil (a Go
    pointer never dangles; an address outside [m] is treated like nil). *)
Definition load {B : Type} (m : gmap positive B) (p : ptr) : option B :=
  p ≫= λ l, m !! l.

(** The address ranges held by a list of block pointers, in order; [None]
    stands for a nil element.  This is what [reflect.DeepEqual] compares. *)
Definition v1_cidrs (m : gmap positive v1.IPBlock) (ps : list ptr)
  : list (option string) := (λ p, v1.CIDR <$> load m p) <$> ps.

Definition networking_cidrs (m : gmap positive networking.IPBlock)
  (ps : list ptr) : list (option string) :=
  (λ p, networking.CIDR <$> load m p) <$> ps.

(** The output side of a conversion: the object behind the [out] pointer and
    the cells of the output version's blocks. *)
Record store (O B : Type) : Type :=
  Store { out : O; cells : gmap positive B }.
Arguments Store {O B} _ _.
Arguments out {O B} _.
Arguments cells {O B} _.

(** ** Computations that may panic *)

Inductive outcome (S A : Type) : Type :=
| Panicked
| Ret (a : A) (s : S).
Arguments Panicked {S A}.
Arguments Ret {S A} _ _.

Definition Go (S A : Type) : Type := S → outcome S A.

Global Instance Go_ret {S} : MRet (Go S) := λ A a s, Ret a s.
Global Instance Go_bind {S} : MBind (Go S) := λ A B f c s,
  match c s with
  | Panicked => Panicked
  | Ret a s' => f a s'
  end.

Definition panic {S A} : Go S A := λ _, Panicked.

(** A read that panics when there is nothing to read. *)
Definition must {S A} (o : option A) : Go S A :=
  match o with
  | Some a => mret a
  | None => panic
  end.

(** [p.f] / [*p] on the input side, whose cells [m] are only read. *)
Definition deref {S B} (m : gmap positive B) (p : ptr) : Go S B :=
  must (load m p).

(** [l[i]]. *)
Definition index {S A} (l : list A) (i : nat) : Go S A := must (l !! i).

(** [out.f]. *)
Definition get_out {O B} : Go (store O B) O := λ s, Ret (out s) s.

(** [out.f = v], as an update of the object behind [out]. *)
Definition set_out {O B} (f : O → O) : Go (store O B) unit :=
  λ s, Ret () (Store (f (out s)) (cells s)).

(** [&T{...}]: a new cell at an address not in use. *)
Definition new {O B} (b : B) : Go (store O B) ptr :=
  λ s, let l := fresh (dom (cells s)) in
       Ret (Some l) (Store (out s) (<[l := b]> (cells s))).

(** [p.f = v] on the output side: panics on nil. *)
Definition assign {O B} (p : ptr) (f : B → B) : Go (store O B) unit :=
  λ s, match p with
       | Some l =>
           match cells s !! l with
           | Some b => Ret () (Store (out s) (<[l := f b]> (cells s)))
           | None => Panicked
           end
       | None => Panicked
       end.

(** ** conversion.go *)

Section conversion.

(** The baseline conversions are generated code ([zz_generated.conversion.go])
    and no part of [conversion.go]: they are taken as parameters.  Each reads
    the input object and its cells, updates the output side in place and
    returns an [error]. *)
Variable autoConvert_v1_NetworkPolicyPeer_To_networking_NetworkPolicyPeer :
  v1.NetworkPolicyPeer → gmap positive v1.IPBlock →
  Go (store networking.NetworkPolicyPeer networking.IPBlock) (option error).

Variable autoConvert_networking_NetworkPolicyPeer_To_v1_NetworkPolicyPeer :
  networking.NetworkPolicyPeer → gmap positive networking.IPBlock →
  Go (store v1.NetworkPolicyPeer v1.IPBlock) (option error).

(** [out.IPBlocks = []*networking.IPBlock{{CIDR: c}}] *)
Definition set_single_IPBlock (c : string)
  : Go (store networking.NetworkPolicyPeer networking.IPBlock) unit :=
  p ← new {| networking.CIDR := c |};
  set_out (λ _, {| networking.IPBlocks := [p] |}).

Definition Convert_v1_NetworkPolicyPeer_To_networking_NetworkPolicyPeer
  (in_ : v1.NetworkPolicyPeer) (m : gmap positive v1.IPBlock)
  : Go (store networking.NetworkPolicyPeer networking.IPBlock) (option error) :=
  err ← autoConvert_v1_NetworkPolicyPeer_To_networking_NetworkPolicyPeer in_ m;
  match err with
  | Some e => mret (Some e)
  | None =>
      b ← deref m (v1.ipBlock in_);
      (if nonempty (v1.CIDR b) && (0 <? length (v1.ipBlocks in_)) then
         first ← index (v1.ipBlocks in_) 0;
         if negb (bool_decide (v1.ipBlock in_ = first)) then
           set_single_IPBlock (v1.CIDR b)
         else mret ()
       else mret ());;
      b ← deref m (v1.ipBlock in_);
      (if nonempty (v1.CIDR b) && (length (v1.ipBlocks in_) =? 0) then
         set_single_IPBlock (v1.CIDR b)
       else mret ());;
      mret None
  end.

Definition Convert_networking_NetworkPolicyPeer_To_v1_NetworkPolicyPeer
  (in_ : networking.NetworkPolicyPeer) (m : gmap positive networking.IPBlock)
  : Go (store v1.NetworkPolicyPeer v1.IPBlock) (option error) :=
  err ← autoConvert_networking_NetworkPolicyPeer_To_v1_NetworkPolicyPeer in_ m;
  match err with
  | Some e => mret (Some e)
  | None =>
      (if 0 <? length (networking.IPBlocks in_) then
         first ← index (networking.IPBlocks in_) 0;
         b ← deref m first;
         o ← get_out;
         assign (v1.ipBlock o) (λ _, {| v1.CIDR := networking.CIDR b |})
       else mret ());;
      mret None
  end.

End conversion.

(** ** The baseline copy *)

(** The element-wise copy of a list of block pointers into the output heap:
    each block is converted by [conv] into a new cell, a nil element stays
    nil, and the order is kept. *)
Fixpoint copy_blocks {O B B'} (conv : B → B') (m : gmap positive B)
  (ps : list ptr) : Go (store O B') (list ptr) :=
  match ps with
  | [] => mret []
  | p :: ps' =>
      q ← match p with
          | None => mret None
          | Some _ => b ← deref m p; new (conv b)
          end;
      qs ← copy_blocks conv m ps';
      mret (q :: qs)
  end.

Definition Convert_v1_IPBlock_To_networking_IPBlock (b : v1.IPBlock)
  : networking.IPBlock := {| networking.CIDR := v1.CIDR b |}.

Definition Convert_networking_IPBlock_To_v1_IPBlock (b : networking.IPBlock)
  : v1.IPBlock := {| v1.CIDR := networking.CIDR b |}.

(** Modelled from the spec: [autoConvert_v1_NetworkPolicyPeer_To_networking_NetworkPolicyPeer]
    of the generated [zz_generated.conversion.go] is missing from the sources;
    the spec describes it as a structural field-by-field copy of the blocks
    into the internal list, every block's CIDR carried over verbatim in the
    original order.  A nil slice and an empty slice are both the empty
    list. *)
Definition structural_copy_v1_To_networking
  (in_ : v1.NetworkPolicyPeer) (m : gmap positive v1.IPBlock)
  : Go (store networking.NetworkPolicyPeer networking.IPBlock) (option error) :=
  qs ← copy_blocks Convert_v1_IPBlock_To_networking_IPBlock m (v1.ipBlocks in_);
  set_out (λ _, {| networking.IPBlocks := qs |});;
  mret None.

(** Modelled from the spec: [autoConvert_networking_NetworkPolicyPeer_To_v1_NetworkPolicyPeer]
    of the generated [zz_generated.conversion.go] is missing from the sources;
    the spec describes it as a structural field-by-field copy of the blocks
    into the external list field.  The singular field of the output has no
    counterpart in the input and is left as it was. *)
Definition structural_copy_networking_To_v1
  (in_ : networking.NetworkPolicyPeer) (m : gmap positive networking.IPBlock)
  : Go (store v1.NetworkPolicyPeer v1.IPBlock) (option error) :=
  qs ← copy_blocks Convert_networking_IPBlock_To_v1_IPBlock m
         (networking.IPBlocks in_);
  set_out (λ o, {| v1.ipBlock := v1.ipBlock o; v1.ipBlocks := qs |});;
  mret None.

(** A pointer of a well-formed Go value: nil, or the address of a cell. *)
Definition allocated {B} (m : gmap positive B) (p : ptr) : Prop :=
  match p with
  | None => True
  | Some l => is_Some (m !! l)
  end.

(** The conversions as they run on top of the structural copy. *)
Definition v1_To_networking :=
  Convert_v1_NetworkPolicyPeer_To_networking_NetworkPolicyPeer
    structural_copy_v1_To_networking.

Definition networking_To_v1 :=
  Convert_networking_NetworkPolicyPeer_To_v1_NetworkPolicyPeer
    structural_copy_networking_To_v1.

(** What a caller observes of an outcome: the error and the address ranges of
    the output list, or the panic. *)
Definition observe_networking
  (r : outcome (store networking.NetworkPolicyPeer networking.IPBlock) (option error))
  : option (option error * list (option string)) :=
  match r with
  | Panicked => None
  | Ret e s => Some (e, networking_cidrs (cells s) (networking.IPBlocks (out s)))
  end.

Definition observe_v1
  (r : outcome (store v1.NetworkPolicyPeer v1.IPBlock) (option error))
  : option (option error * (option string * list (option string))) :=
  match r with
  | Panicked => None
  | Ret e s =>
      Some (e, (v1.CIDR <$> load (cells s) (v1.ipBlock (out s)),
                v1_cidrs (cells s) (v1.ipBlocks (out s))))
  end.

(** internal -> external -> internal, the second conversion writing into a
    zero-valued object and an empty heap. *)
Definition round_trip (in_ : networking.NetworkPolicyPeer)
  (m : gmap positive networking.IPBlock)
  (s : store v1.NetworkPolicyPeer v1.IPBlock)
  : outcome (store networking.NetworkPolicyPeer networking.IPBlock) (option error) :=
  match networking_To_v1 in_ m s with
  | Panicked => Panicked
  | Ret (Some e) _ => Ret (Some e) (Store networking.zero ∅)
  | Ret None s' => v1_To_networking (out s') (cells s') (Store networking.zero ∅)
  end.

(** ** How the overlay of the v1 -> internal conversion behaves *)

(** Whether one of the two overwriting branches is taken, for an input whose
    [IPBlock] points to [b]. *)
Definition overwrites (in_ : v1.NetworkPolicyPeer) (b : v1.IPBlock) : bool :=
  nonempty (v1.CIDR b) &&
  match v1.ipBlocks in_ with
  | [] => true
  | first :: _ => negb (bool_decide (v1.ipBlock in_ = first))
  end.

(** The output side after [out.IPBlocks = []*networking.IPBlock{{CIDR: c}}]. *)
Definition with_single (c : string)
  (s : store networking.NetworkPolicyPeer networking.IPBlock)
  : store networking.NetworkPolicyPeer networking.IPBlock :=
  let l := fresh (dom (cells s)) in
  Store {| networking.IPBlocks := [Some l] |}
        (<[l := {| networking.CIDR := c |}]> (cells s)).
Arguments with_single : simpl never.

(** ** Inputs of the conversion tests *)

Module tests.

(** Three v1 blocks at addresses 1, 2 and 3. *)
Definition v1_cells (c1 c2 c3 : string) : gmap positive v1.IPBlock :=
  list_to_map [(1%positive, {| v1.CIDR := c1 |});
               (2%positive, {| v1.CIDR := c2 |});
               (3%positive, {| v1.CIDR := c3 |})].

(** [IPBlock: &v1.IPBlock{...}, IPBlocks: []*v1.IPBlock{{...}, {...}}] *)
Definition both : v1.NetworkPolicyPeer :=
  {| v1.ipBlock := Some 1%positive;
     v1.ipBlocks := [Some 2%positive; Some 3%positive] |}.

(** "mismatched IPBlock" *)
Definition mismatched_cells := v1_cells "1.1.2.1" "1.1.1.1" "2.2.2.2".

(** "matching IPBlock" *)
Definition matching_cells := v1_cells "1.1.1.1" "1.1.1.1" "2.2.2.2".

(** "empty IPBlock" *)
Definition empty_cells := v1_cells EmptyString "1.1.1.1" "2.2.2.2".

(** "only Primary IP Provided" *)
Definition only_primary : v1.NetworkPolicyPeer :=
  {| v1.ipBlock := Some 1%positive; v1.ipBlocks := [] |}.

(** "only list of IPs": the [IPBlock] field is left nil. *)
Definition only_list : v1.NetworkPolicyPeer :=
  {| v1.ipBlock := None;
     v1.ipBlocks := [Some 2%positive; Some 3%positive] |}.

(** The caller's [networking.NetworkPolicyPeer{}] and no internal block yet. *)
Definition fresh_networking
  : store networking.NetworkPolicyPeer networking.IPBlock :=
  Store networking.zero ∅.

(** Internal blocks at addresses 1 and 2. *)
Definition networking_cells (c1 c2 : string)
  : gmap positive networking.IPBlock :=
  list_to_map [(1%positive, {| networking.CIDR := c1 |});
               (2%positive, {| networking.CIDR := c2 |})].

(** "one IPBlock" *)
Definition one_block : networking.NetworkPolicyPeer :=
  {| networking.IPBlocks := [Some 1%positive] |}.

(** "no IPBlock" *)
Definition no_block : networking.NetworkPolicyPeer :=
  {| networking.IPBlocks := [] |}.

(** "list of IPBlocks" *)
Definition two_blocks : networking.NetworkPolicyPeer :=
  {| networking.IPBlocks := [Some 1%positive; Some 2%positive] |}.

(** The caller's [v1.NetworkPolicyPeer{}] and no v1 block yet. *)
Definition fresh_v1 : store v1.NetworkPolicyPeer v1.IPBlock :=
  Store v1.zero ∅.

(** A caller that allocated the singular field beforehand:
    [v1.NetworkPolicyPeer{IPBlock: &v1.IPBlock{}}]. *)
Definition allocated_v1 : store v1.NetworkPolicyPeer v1.IPBlock :=
  Store {| v1.ipBlock := Some 1%positive; v1.ipBlocks := [] |}
        {[ 1%positive := {| v1.CIDR := EmptyString |} ]}.

(** A generated conversion whose nested field conversion fails. *)
Definition failing {I M O B} (e : error) : I → M → Go (store O B) (option error) :=
  λ _ _, mret (Some e).

End tests.

(** ** record_flags.go *)

(** [*p] on the output side: panics on nil. *)
Definition read {O B} (p : ptr) : Go (store O B) B :=
  λ s, must (load (cells s) p) s.

Definition get_state {S} : Go S S := λ s, Ret s s.

(** [strings.Join] of the Go standard library. *)
Fixpoint Join (elems : list string) (sep : string) : string :=
  match elems with
  | [] => EmptyString
  | [e] => e
  | e :: rest => e +:+ sep +:+ Join rest sep
  end.

Module pflag.

(** What the code reads of a [pflag.Flag]: its name and its annotations
    ([map[string][]string]). *)
Record Flag : Type :=
  { Name : string; Annotations : gmap string (list string) }.

End pflag.

Module cobra.

(** What a flag set answers when asked: [Parsed()], [Args()] and
    [Changed(name)]. *)
Record FlagSet : Type :=
  { Parsed : bool; Args : list string; Changed : string → bool }.

(** What a call of [ParseAll(arguments, fn)] does, for a callback [fn] that
    returns no error: the calls of [fn], in order, each with a flag and its
    value; the error returned; the values stored into the variables the flags
    are bound to; and the flag set as it is afterwards. *)
Record Parse : Type :=
  { calls : list (pflag.Flag * string);
    err : option error;
    stores : gmap positive bool → gmap positive bool;
    after : FlagSet }.

(** A [cobra.Command], as far as its flag set goes: the flag set as it is
    and what parsing a list of arguments does with it. *)
Record Command : Type :=
  { Flags : FlagSet; ParseAll : list string → Parse }.

End cobra.

Module meta.

(** A [runtime.Object] as [meta.Accessor] shows it: either the accessor
    cannot be had, with an error, or the object has annotations, a map that
    may be nil. *)
Inductive Object : Type :=
| not_an_object (e : error)
| object (annotations : option (gmap string string)).

(** [meta.Accessor(obj)]: the error, if any. *)
Definition Accessor (obj : Object) : option error :=
  match obj with
  | not_an_object e => Some e
  | object _ => None
  end.

(** [accessor.GetAnnotations()] *)
Definition GetAnnotations : Go Object (option (gmap string string)) :=
  λ obj, match obj with
         | object a => Ret a obj
         | not_an_object _ => Panicked
         end.

(** [accessor.SetAnnotations(annotations)] *)
Definition SetAnnotations (a : option (gmap string string)) : Go Object unit :=
  λ obj, match obj with
         | object _ => Ret () (object a)
         | not_an_object _ => Panicked
         end.

End meta.

(** [m[k] = v] on a Go map: panics when the map is nil. *)
Definition map_assign {S} (m : option (gmap string string)) (k v : string)
  : Go S (option (gmap string string)) :=
  match m with
  | Some a => mret (Some (<[k := v]> a))
  | None => panic
  end.

(** [_, found := m[k]] on a Go map; a nil map has no key. *)
Definition map_found (m : option (gmap string string)) (k : string) : bool :=
  match m with
  | Some a => bool_decide (is_Some (a !! k))
  | None => false
  end.

Module genericclioptions.

Definition ChangeCauseAnnotation : string := "kubernetes.io/change-cause".

(** The struct [RecordFlags]; [Record_] is the Go field [Record *bool]. *)
Record RecordFlags : Type :=
  { Record_ : ptr; Update : ptr; changeCause : string }.

(** The implementations of the interface [Recorder]. *)
Inductive Recorder : Type :=
| NoopRecorder
| ChangeCauseRecorder (cause : string)
| ChangeCauseUpdateRecorder (cause : string).

Definition NewChangeCauseUpdateRecorder (cause : string) : Recorder :=
  ChangeCauseUpdateRecorder cause.

(** The methods of [RecordFlags] (pointer receiver) run on a store whose object is the receiver
    ([None] for a nil receiver) and whose cells are the [bool] variables the
    fields point to. *)
Definition ToRecorder
  : Go (store (option RecordFlags) bool) (Recorder * option error) :=
  f ← get_out;
  match f with
  | None => mret (NoopRecorder, None)
  | Some f =>
      shouldRecord ← match Record_ f with
                     | Some _ => read (Record_ f)
                     | None => mret false
                     end;
      shouldUpdate ← match Update f with
                     | Some _ => read (Update f)
                     | None => mret true
                     end;
      if negb shouldRecord then
        if negb shouldUpdate then mret (NoopRecorder, None)
        else mret (NewChangeCauseUpdateRecorder (changeCause f), None)
      else mret (ChangeCauseRecorder (changeCause f), None)
  end.

(** Whether [flag.Annotations["classified"]] is there and not empty. *)
Definition classified (flag : pflag.Flag) : bool :=
  match pflag.Annotations flag !! "classified" with
  | Some set => negb (length set =? 0)
  | None => false
  end.

(** The closure [parseFunc], as a step on the variable [flags] it captures. *)
Definition parseFunc (flags : string) (call : pflag.Flag * string) : string :=
  let flags := flags +:+ " --" +:+ pflag.Name call.1 in
  if negb (classified call.1) then flags +:+ "=" +:+ call.2
  else flags +:+ "=CLASSIFIED".

Section environment.

(** The process arguments [os.Args] and [filepath.Base]. *)
Variable os_Args : list string.
Variable Base : string → string.

(** [parseCommandArguments(cmd)]; with the string it returns the flag set as
    the call leaves it. *)
Definition parseCommandArguments {O} (cmd : cobra.Command)
  : Go (store O bool) (string * cobra.FlagSet) :=
  if length os_Args =? 0 then mret (EmptyString, cobra.Flags cmd)
  else
    let parse := cobra.ParseAll cmd (drop 1 os_Args) in
    let flags := foldl parseFunc EmptyString (cobra.calls parse) in
    (λ s, Ret () (Store (out s) (cobra.stores parse (cells s))));;
    let fs := cobra.after parse in
    if bool_decide (cobra.err parse ≠ None) || negb (cobra.Parsed fs) then
      mret (EmptyString, fs)
    else
      let args :=
        if 0 <? length (cobra.Args fs)
        then " " +:+ Join (cobra.Args fs) " "
        else EmptyString in
      arg0 ← index os_Args 0;
      mret (Base arg0 +:+ args +:+ flags, fs).

Definition Complete (cmd : cobra.Command)
  : Go (store (option RecordFlags) bool) (option error) :=
  f ← get_out;
  match f with
  | None => mret None
  | Some f =>
      r ← parseCommandArguments cmd;
      set_out (λ _, Some {| Record_ := Record_ f; Update := Update f;
                            changeCause := r.1 |});;
      (if cobra.Changed r.2 "record" then
         record ← read (Record_ f);
         if negb record then assign (Update f) (λ _, false) else mret ()
       else mret ());;
      mret None
  end.

End environment.

Definition CompleteWithChangeCause (cause : string)
  : Go (store (option RecordFlags) bool) (option error) :=
  f ← get_out;
  match f with
  | None => mret None
  | Some f =>
      set_out (λ _, Some {| Record_ := Record_ f; Update := Update f;
                            changeCause := cause |});;
      mret None
  end.

(** [NewRecordFlags()]: the store's object becomes the new [RecordFlags]. *)
Definition NewRecordFlags : Go (store (option RecordFlags) bool) unit :=
  record ← new false;
  update ← new true;
  set_out (λ _, Some {| Record_ := record; Update := update;
                        changeCause := EmptyString |}).

(** [NoopRecorder.Record] *)
Definition NoopRecorder_Record : Go meta.Object (option error) := mret None.

(** [ChangeCauseRecorder.Record] (pointer receiver) *)
Definition ChangeCauseRecorder_Record (cause : string)
  : Go meta.Object (option error) :=
  obj ← get_state;
  match meta.Accessor obj with
  | Some e => mret (Some e)
  | None =>
      annotations ← meta.GetAnnotations;
      let annotations :=
        match annotations with
        | None => Some ∅
        | Some _ => annotations
        end in
      annotations ← map_assign annotations ChangeCauseAnnotation cause;
      meta.SetAnnotations annotations;;
      mret None
  end.

(** [annotationExists(obj)] *)
Definition annotationExists (obj : meta.Object) : bool :=
  match meta.Accessor obj with
  | Some _ => false
  | None =>
      match obj with
      | meta.object annotations => map_found annotations ChangeCauseAnnotation
      | meta.not_an_object _ => false
      end
  end.

(** [ChangeCauseUpdateRecorder.Record] (pointer receiver) *)
Definition ChangeCauseUpdateRecorder_Record (cause : string)
  : Go meta.Object (option error) :=
  obj ← get_state;
  if annotationExists obj then ChangeCauseRecorder_Record cause
  else mret None.

(** [rec.Record(obj)] through the interface. *)
Definition Record_obj (rec : Recorder) : Go meta.Object (option error) :=
  match rec with
  | NoopRecorder => NoopRecorder_Record
  | ChangeCauseRecorder cause => ChangeCauseRecorder_Record cause
  | ChangeCauseUpdateRecorder cause => ChangeCauseUpdateRecorder_Record cause
  end.

Section patch.

(** [json.Marshal] and [jsonpatch.CreateMergePatch], over some type of byte
    slices; a nil slice is [None]. *)
Variable bytes : Type.
Variable Marshal : meta.Object → bytes * option error.
Variable CreateMergePatch : bytes → bytes → option bytes * option error.

(** [NoopRecorder.MakeRecordMergePatch] *)
Definition NoopRecorder_MakeRecordMergePatch
  : Go meta.Object (option bytes * option error) := mret (None, None).



End patch.

End genericclioptions.

(** The value of an annotation of an object, if there is one. *)
Definition annotation (obj : meta.Object) (k : string) : option string :=
  match obj with
  | meta.object (Some a) => a !! k
  | _ => None
  end.

(** Two calls of [parseFunc] that the recorded string cannot tell apart: the
    same flag, and the same value unless the flag is classified. *)
Definition same_but_classified (c c' : pflag.Flag * string) : Prop :=
  c.1 = c'.1 ∧ (genericclioptions.classified c.1 = false → c.2 = c'.2).

(** ** Inputs of the record flag tests *)

Module record_tests.

(** The flag that [AddFlags] declares. *)
Definition record_flag : pflag.Flag :=
  {| pflag.Name := "record"; pflag.Annotations := ∅ |}.

(** A flag annotated as classified. *)
Definition token_flag : pflag.Flag :=
  {| pflag.Name := "token";
     pflag.Annotations := {[ "classified" := ["true"] ]} |}.

(** A command whose parsing finds [--record=v] and the flag [--token] with
    the value [token]; the variable bound to [--record] is cell 1. *)
Definition command (v : bool) (token : string) : cobra.Command :=
  {| cobra.Flags :=
       {| cobra.Parsed := false; cobra.Args := [];
          cobra.Changed := λ _, false |};
     cobra.ParseAll := λ _,
       {| cobra.calls :=
            [(record_flag, if v then "true" else "false");
             (token_flag, token)];
          cobra.err := None;
          cobra.stores := <[1%positive := v]>;
          cobra.after :=
            {| cobra.Parsed := true; cobra.Args := ["some_argument"];
               cobra.Changed := λ n, bool_decide (n = "record") |} |} |}.

(** A command whose parsing fails. *)
Definition broken_command : cobra.Command :=
  {| cobra.Flags :=
       {| cobra.Parsed := false; cobra.Args := [];
          cobra.Changed := λ _, false |};
     cobra.ParseAll := λ _,
       {| cobra.calls := [];
          cobra.err := Some "unknown flag";
          cobra.stores := λ h, h;
          cobra.after :=
            {| cobra.Parsed := false; cobra.Args := [];
               cobra.Changed := λ _, false |} |} |}.

Definition os_Args : list string :=
  ["/usr/bin/change_cmd"; "some_argument"; "--record=false"].

(** A stand-in for [filepath.Base]. *)
Definition Base (path : string) : string :=
  if bool_decide (path = "/usr/bin/change_cmd") then "change_cmd" else path.

(** [&RecordFlags{Record: &record, Update: &update}] *)
Definition flags (record update : bool)
  : store (option genericclioptions.RecordFlags) bool :=
  Store (Some {| genericclioptions.Record_ := Some 1%positive;
                 genericclioptions.Update := Some 2%positive;
                 genericclioptions.changeCause := EmptyString |})
        (list_to_map [(1%positive, record); (2%positive, update)]).

(** [&RecordFlags{Record: &record}]: no [Update]. *)
Definition flags_without_Update (record : bool)
  : store (option genericclioptions.RecordFlags) bool :=
  Store (Some {| genericclioptions.Record_ := Some 1%positive;
                 genericclioptions.Update := None;
                 genericclioptions.changeCause := EmptyString |})
        {[ 1%positive := record ]}.

(** A deployment with an existing change-cause annotation, and one with no
    annotations at all. *)
Definition annotated : meta.Object :=
  meta.object
    (Some {[ genericclioptions.ChangeCauseAnnotation :=
               "create_cmd some_argument --record=true" ]}).

Definition bare : meta.Object := meta.object None.

End record_tests.

(** Unfolds the plumbing of the monad and evaluates what can be. *)
Ltac run_go :=
  unfold mbind, Go_bind, mret, Go_ret, panic, deref, must, index,
    get_out, set_out, assign;
  cbn.

(** * Properties *)

(** ** Basic facts *)

Lemma nonempty_true (c : string) : nonempty c = true ↔ c ≠ EmptyString.
Proof. destruct c; unfold nonempty; cbn; split; intros; congruence. Qed.

Lemma nonempty_false (c : string) : nonempty c = false ↔ c = EmptyString.
Proof. destruct c; unfold nonempty; cbn; split; intros; congruence. Qed.

Lemma bind_run {S A B} (c : Go S A) (f : A → Go S B) (s : S) :
  (c ≫= f) s = match c s with Panicked => Panicked | Ret a s' => f a s' end.
Proof. reflexivity. Qed.

Lemma deref_run {S B} (m : gmap positive B) (p : ptr) (s : S) :
  deref m p s = match load m p with Some b => Ret b s | None => Panicked end.
Proof. unfold deref, must. by destruct (load m p). Qed.

Lemma set_single_IPBlock_run c s :
  set_single_IPBlock c s = Ret () (with_single c s).
Proof. reflexivity. Qed.

Lemma fresh_cell_unused {B} (h : gmap positive B) : h !! fresh (dom h) = None.
Proof. apply not_elem_of_dom, is_fresh. Qed.

Lemma with_single_cidrs c s :
  networking_cidrs (cells (with_single c s))
    (networking.IPBlocks (out (with_single c s))) = [Some c].
Proof.
  unfold networking_cidrs, with_single; cbn.
  by rewrite lookup_insert_eq.
Qed.

(** ** The v1 -> internal conversion, case by case *)

Section v1_To_networking.

Variable auto :
  v1.NetworkPolicyPeer → gmap positive v1.IPBlock →
  Go (store networking.NetworkPolicyPeer networking.IPBlock) (option error).

Local Abbreviation Convert :=
  (Convert_v1_NetworkPolicyPeer_To_networking_NetworkPolicyPeer auto).

Lemma Convert_v1_panicked in_ m s :
  auto in_ m s = Panicked → Convert in_ m s = Panicked.
Proof.
  intros H.
  unfold Convert_v1_NetworkPolicyPeer_To_networking_NetworkPolicyPeer.
  by rewrite bind_run, H.
Qed.

Lemma Convert_v1_failed in_ m s e s1 :
  auto in_ m s = Ret (Some e) s1 → Convert in_ m s = Ret (Some e) s1.
Proof.
  intros H.
  unfold Convert_v1_NetworkPolicyPeer_To_networking_NetworkPolicyPeer.
  by rewrite bind_run, H.
Qed.

Lemma Convert_v1_nil in_ m s s1 :
  auto in_ m s = Ret None s1 → load m (v1.ipBlock in_) = None →
  Convert in_ m s = Panicked.
Proof.
  intros H Hnil.
  unfold Convert_v1_NetworkPolicyPeer_To_networking_NetworkPolicyPeer.
  by rewrite bind_run, H, bind_run, deref_run, Hnil.
Qed.

Lemma Convert_v1_overlay in_ m s s1 b :
  auto in_ m s = Ret None s1 → load m (v1.ipBlock in_) = Some b →
  Convert in_ m s =
    Ret None (if overwrites in_ b then with_single (v1.CIDR b) s1 else s1).
Proof.
  intros H Hb.
  unfold Convert_v1_NetworkPolicyPeer_To_networking_NetworkPolicyPeer, overwrites.
  rewrite bind_run, H, bind_run, deref_run, Hb.
  destruct (nonempty (v1.CIDR b)) eqn:Hc; cbn [andb].
  - destruct (v1.ipBlocks in_) as [|first rest] eqn:Hl.
    + by repeat (run_go; rewrite ?Hb, ?Hc).
    + by repeat (run_go; rewrite ?Hb, ?Hc); repeat case_bool_decide.
  - by repeat (run_go; rewrite ?Hb, ?Hc).
Qed.

End v1_To_networking.

(** ** The internal -> v1 conversion, case by case *)

Section networking_To_v1.

Variable auto :
  networking.NetworkPolicyPeer → gmap positive networking.IPBlock →
  Go (store v1.NetworkPolicyPeer v1.IPBlock) (option error).

Local Abbreviation Convert :=
  (Convert_networking_NetworkPolicyPeer_To_v1_NetworkPolicyPeer auto).

Lemma Convert_networking_panicked in_ m s :
  auto in_ m s = Panicked → Convert in_ m s = Panicked.
Proof.
  intros H.
  unfold Convert_networking_NetworkPolicyPeer_To_v1_NetworkPolicyPeer.
  by rewrite bind_run, H.
Qed.

Lemma Convert_networking_failed in_ m s e s1 :
  auto in_ m s = Ret (Some e) s1 → Convert in_ m s = Ret (Some e) s1.
Proof.
  intros H.
  unfold Convert_networking_NetworkPolicyPeer_To_v1_NetworkPolicyPeer.
  by rewrite bind_run, H.
Qed.

Lemma Convert_networking_no_block in_ m s s1 :
  auto in_ m s = Ret None s1 → networking.IPBlocks in_ = [] →
  Convert in_ m s = Ret None s1.
Proof.
  intros H Hl.
  unfold Convert_networking_NetworkPolicyPeer_To_v1_NetworkPolicyPeer.
  by rewrite bind_run, H, Hl.
Qed.

Lemma Convert_networking_nil_out in_ m s s1 first rest :
  auto in_ m s = Ret None s1 →
  networking.IPBlocks in_ = first :: rest →
  load (cells s1) (v1.ipBlock (out s1)) = None →
  Convert in_ m s = Panicked.
Proof.
  intros H Hl Hnil.
  unfold Convert_networking_NetworkPolicyPeer_To_v1_NetworkPolicyPeer.
  rewrite bind_run, H, Hl. run_go.
  destruct (load m first); [|done]. run_go.
  destruct (v1.ipBlock (out s1)) as [l|]; [|done].
  cbn in Hnil. by rewrite Hnil.
Qed.

Lemma Convert_networking_assign in_ m s s1 first rest b l b0 :
  auto in_ m s = Ret None s1 →
  networking.IPBlocks in_ = first :: rest →
  load m first = Some b →
  v1.ipBlock (out s1) = Some l →
  cells s1 !! l = Some b0 →
  Convert in_ m s =
    Ret None (Store (out s1)
                (<[l := Convert_networking_IPBlock_To_v1_IPBlock b]> (cells s1))).
Proof.
  intros H Hl Hb Hp Hc.
  unfold Convert_networking_NetworkPolicyPeer_To_v1_NetworkPolicyPeer.
  rewrite bind_run, H, Hl. run_go. rewrite Hb. run_go.
  by rewrite Hp, Hc.
Qed.

End networking_To_v1.

(** ** The structural copy meets its description *)

Lemma copy_blocks_spec {O B B'} (conv : B → B') (m : gmap positive B)
    (ps : list ptr) (s : store O B') :
  Forall (allocated m) ps →
  ∃ qs h,
    copy_blocks conv m ps s = Ret qs (Store (out s) h) ∧
    cells s ⊆ h ∧
    load h <$> qs = (λ p, conv <$> load m p) <$> ps.
Proof.
  intros Hall. revert s.
  induction Hall as [|p ps Hp _ IH]; intros s.
  - exists [], (cells s). by destruct s.
  - destruct p as [l|]; cbn [copy_blocks].
    + destruct Hp as [b Hb].
      rewrite bind_run, bind_run, deref_run. cbn [load mbind option_bind].
      rewrite Hb. cbn [new].
      set (l' := fresh (dom (cells s))).
      destruct (IH (Store (out s) (<[l' := conv b]> (cells s))))
        as (qs & h & Hrun & Hsub & Hqs).
      rewrite bind_run, Hrun. cbn in *.
      exists (Some l' :: qs), h. split_and!; [done| |].
      * etrans; [|exact Hsub]. apply insert_subseteq, fresh_cell_unused.
      * cbn. rewrite Hb. f_equal; [|done].
        eapply lookup_weaken; [|exact Hsub]. apply lookup_insert_eq.
    + rewrite bind_run. run_go.
      destruct (IH s) as (qs & h & Hrun & Hsub & Hqs).
      rewrite Hrun. exists (None :: qs), h. split_and!; [done..|].
      cbn. by f_equal.
Qed.

Lemma cidrs_of_copy {B B'} (f : B' → string) (g : B → string) (conv : B → B')
    (h : gmap positive B') (m : gmap positive B) (qs ps : list ptr) :
  (∀ b, f (conv b) = g b) →
  load h <$> qs = (λ p, conv <$> load m p) <$> ps →
  (λ q, f <$> load h q) <$> qs = (λ p, g <$> load m p) <$> ps.
Proof.
  intros Hfg Hqs.
  change ((fmap f ∘ load h) <$> qs = (λ p, g <$> load m p) <$> ps).
  rewrite (list_fmap_compose (load h) (fmap f) qs), Hqs, <-list_fmap_compose.
  apply list_fmap_ext; intros _ p _; cbn.
  destruct (load m p); cbn; by rewrite ?Hfg.
Qed.

Lemma structural_copy_v1_To_networking_spec in_ m s :
  Forall (allocated m) (v1.ipBlocks in_) →
  ∃ s1,
    structural_copy_v1_To_networking in_ m s = Ret None s1 ∧
    cells s ⊆ cells s1 ∧
    networking_cidrs (cells s1) (networking.IPBlocks (out s1))
      = v1_cidrs m (v1.ipBlocks in_).
Proof.
  intros Hall.
  destruct (copy_blocks_spec Convert_v1_IPBlock_To_networking_IPBlock
              m _ s Hall) as (qs & h & Hrun & Hsub & Hqs).
  unfold structural_copy_v1_To_networking.
  rewrite bind_run, Hrun. run_go.
  eexists; split_and!; [done..|]; cbn.
  by apply (cidrs_of_copy _ _ Convert_v1_IPBlock_To_networking_IPBlock).
Qed.

Lemma structural_copy_networking_To_v1_spec in_ m s :
  Forall (allocated m) (networking.IPBlocks in_) →
  ∃ s1,
    structural_copy_networking_To_v1 in_ m s = Ret None s1 ∧
    cells s ⊆ cells s1 ∧
    v1.ipBlock (out s1) = v1.ipBlock (out s) ∧
    v1_cidrs (cells s1) (v1.ipBlocks (out s1))
      = networking_cidrs m (networking.IPBlocks in_).
Proof.
  intros Hall.
  destruct (copy_blocks_spec Convert_networking_IPBlock_To_v1_IPBlock
              m _ s Hall) as (qs & h & Hrun & Hsub & Hqs).
  unfold structural_copy_networking_To_v1.
  rewrite bind_run, Hrun. run_go.
  eexists; split_and!; [done..|]; cbn.
  by apply (cidrs_of_copy _ _ Convert_networking_IPBlock_To_v1_IPBlock).
Qed.

(** Every normal return of the v1 -> internal conversion is the baseline's
    output, possibly with the list overwritten by the singular block. *)
Lemma Convert_v1_returns auto in_ m s s1 e s2 :
  auto in_ m s = Ret None s1 →
  Convert_v1_NetworkPolicyPeer_To_networking_NetworkPolicyPeer auto in_ m s
    = Ret e s2 →
  e = None ∧
  ∃ b, load m (v1.ipBlock in_) = Some b ∧
       s2 = if overwrites in_ b then with_single (v1.CIDR b) s1 else s1.
Proof.
  intros H Hrun.
  destruct (load m (v1.ipBlock in_)) as [b|] eqn:Hb.
  - rewrite (Convert_v1_overlay auto _ _ _ _ _ H Hb) in Hrun.
    injection Hrun as <- <-. eauto.
  - by rewrite (Convert_v1_nil auto _ _ _ _ H Hb) in Hrun.
Qed.

(** Pointer identity of the singular field and the first list element keeps
    the baseline's list, whatever the address ranges are. *)
Lemma same_pointer_keeps_list auto in_ m s s1 b rest :
  auto in_ m s = Ret None s1 →
  load m (v1.ipBlock in_) = Some b →
  v1.ipBlocks in_ = v1.ipBlock in_ :: rest →
  Convert_v1_NetworkPolicyPeer_To_networking_NetworkPolicyPeer auto in_ m s
    = Ret None s1.
Proof.
  intros H Hb Hl. rewrite (Convert_v1_overlay auto _ _ _ _ _ H Hb).
  unfold overwrites. rewrite Hl, bool_decide_eq_true_2 by done.
  by rewrite andb_false_r.
Qed.

(** When the caller has allocated the singular field of the output and the
    first internal block is not nil, the internal -> v1 conversion stores the
    first block's address range there and leaves the baseline's list alone. *)
Lemma allocated_output_gets_first_block auto in_ m s s1 first rest b l b0 :
  auto in_ m s = Ret None s1 →
  networking.IPBlocks in_ = first :: rest →
  load m first = Some b →
  v1.ipBlock (out s1) = Some l →
  cells s1 !! l = Some b0 →
  ∃ s2,
    Convert_networking_NetworkPolicyPeer_To_v1_NetworkPolicyPeer auto in_ m s
      = Ret None s2 ∧
    v1.CIDR <$> load (cells s2) (v1.ipBlock (out s2))
      = Some (networking.CIDR b) ∧
    v1.ipBlocks (out s2) = v1.ipBlocks (out s1) ∧
    ∀ l', l' ≠ l → cells s2 !! l' = cells s1 !! l'.
Proof.
  intros H Hl Hb Hp Hc.
  rewrite (Convert_networking_assign auto _ _ _ _ _ _ _ _ _ H Hl Hb Hp Hc).
  eexists; split_and!; [done| |done|]; cbn.
  - rewrite Hp; cbn. by rewrite lookup_insert_eq.
  - intros l' Hne. by rewrite lookup_insert_ne.
Qed.

(** Applied to its own result the round trip changes nothing more: on the
    two-block input it returns the first block both times. *)
Lemma round_trip_again :
  match round_trip tests.two_blocks
          (tests.networking_cells "192.168.1.0/24" "192.168.2.0/24")
          tests.allocated_v1 with
  | Ret None s =>
      observe_networking (round_trip (out s) (cells s) tests.allocated_v1)
  | _ => None
  end = Some (None, [Some "192.168.1.0/24"]).
Proof. by vm_compute. Qed.

(** * The claims *)

(** C1: when the singular [IPBlock] holds a non-empty address range, the list
    [IPBlocks] is non-empty and [IPBlock] is not the same element as
    [IPBlocks[0]], the v1 -> internal conversion (its baseline copy having
    succeeded) returns a list of exactly one block, which carries the address
    range of [IPBlock]; nothing of the original list is left. *)
Theorem C1_mismatched_IPBlock_wins auto in_ m s s1 b first rest :
  auto in_ m s = Ret None s1 →
  load m (v1.ipBlock in_) = Some b →
  v1.CIDR b ≠ EmptyString →
  v1.ipBlocks in_ = first :: rest →
  v1.ipBlock in_ ≠ first →
  ∃ s2 l,
    Convert_v1_NetworkPolicyPeer_To_networking_NetworkPolicyPeer auto in_ m s
      = Ret None s2 ∧
    networking.IPBlocks (out s2) = [Some l] ∧
    cells s2 !! l = Some {| networking.CIDR := v1.CIDR b |} ∧
    networking_cidrs (cells s2) (networking.IPBlocks (out s2))
      = [Some (v1.CIDR b)].
Proof.
  intros H Hb Hc Hl Hne.
  exists (with_single (v1.CIDR b) s1), (fresh (dom (cells s1))).
  rewrite (Convert_v1_overlay auto _ _ _ _ _ H Hb).
  unfold overwrites. rewrite Hl, (proj2 (nonempty_true _) Hc).
  rewrite bool_decide_eq_false_2 by done. cbn [andb negb].
  split_and!; [done..| |apply with_single_cidrs].
  unfold with_single; cbn. apply lookup_insert_eq.
Qed.

Lemma C1_mismatched_IPBlock_wins_witness :
  ∃ s2 l,
    v1_To_networking tests.both tests.mismatched_cells tests.fresh_networking
      = Ret None s2 ∧
    networking.IPBlocks (out s2) = [Some l] ∧
    cells s2 !! l = Some {| networking.CIDR := "1.1.2.1" |} ∧
    networking_cidrs (cells s2) (networking.IPBlocks (out s2))
      = [Some "1.1.2.1"].
Proof.
  eapply (C1_mismatched_IPBlock_wins structural_copy_v1_To_networking
            tests.both tests.mismatched_cells tests.fresh_networking _
            {| v1.CIDR := "1.1.2.1" |} (Some 2%positive) [Some 3%positive]).
  - vm_compute; reflexivity.
  - vm_compute; reflexivity.
  - discriminate.
  - reflexivity.
  - discriminate.
Defined.

(** C2: the claim is that an input whose [IPBlock] holds the same address
    range as [IPBlocks[0]] keeps its whole list.  On the "matching IPBlock"
    input of the test ([IPBlock] 1.1.1.1, [IPBlocks] 1.1.1.1 and 2.2.2.2, three
    separately allocated blocks) the conversion compares the two pointers,
    finds them different, and returns the one-element list 1.1.1.1. *)
Theorem C2_matching_IPBlock_is_truncated :
  v1.CIDR <$> load tests.matching_cells (v1.ipBlock tests.both)
    = Some "1.1.1.1" ∧
  v1_cidrs tests.matching_cells (v1.ipBlocks tests.both)
    = [Some "1.1.1.1"; Some "2.2.2.2"] ∧
  observe_networking
    (v1_To_networking tests.both tests.matching_cells tests.fresh_networking)
    = Some (None, [Some "1.1.1.1"]).
Proof. by vm_compute. Qed.

(** C3: the claim is that both conversions complete on every structurally
    valid input.  On the "only list of IPs" input of the test, whose [IPBlock]
    is nil, the v1 -> internal conversion panics on [in.IPBlock.CIDR]; on the
    "one IPBlock" input of the test, written into [v1.NetworkPolicyPeer{}],
    the internal -> v1 conversion panics on [out.IPBlock.CIDR = ...]. *)
Theorem C3_nil_IPBlock_panics :
  v1_To_networking tests.only_list tests.matching_cells tests.fresh_networking
    = Panicked ∧
  networking_To_v1 tests.one_block
    (tests.networking_cells "192.168.1.0/24" "192.168.2.0/24") tests.fresh_v1
    = Panicked.
Proof. by vm_compute. Qed.

(** C4: the claim is that internal -> v1 -> internal gives back the canonical
    list.  On the "list of IPBlocks" input of the test the first conversion
    panics when it writes into [v1.NetworkPolicyPeer{}]; when the caller has
    allocated the singular field, the second conversion sees two different
    pointers and returns the first block only. *)
Theorem C4_round_trip_loses_blocks :
  networking_cidrs (tests.networking_cells "192.168.1.0/24" "192.168.2.0/24")
    (networking.IPBlocks tests.two_blocks)
    = [Some "192.168.1.0/24"; Some "192.168.2.0/24"] ∧
  round_trip tests.two_blocks
    (tests.networking_cells "192.168.1.0/24" "192.168.2.0/24") tests.fresh_v1
    = Panicked ∧
  observe_networking
    (round_trip tests.two_blocks
       (tests.networking_cells "192.168.1.0/24" "192.168.2.0/24")
       tests.allocated_v1)
    = Some (None, [Some "192.168.1.0/24"]).
Proof. by vm_compute. Qed.

(** C5: the claim is that a non-empty internal list converts to a v1 peer
    whose [IPBlock] equals [IPBlocks[0]] and whose list is unchanged.  On the
    "list of IPBlocks" input of the test, written into
    [v1.NetworkPolicyPeer{}] as the test does, the conversion panics: the
    singular field of the output is nil when [out.IPBlock.CIDR] is assigned. *)
Theorem C5_zero_output_panics :
  observe_v1
    (networking_To_v1 tests.two_blocks
       (tests.networking_cells "192.168.1.0/24" "192.168.2.0/24")
       tests.fresh_v1)
    = None.
Proof. by vm_compute. Qed.

(** C6: when the baseline conversion of either direction returns an error,
    the conversion returns that same error, and the output side is exactly as
    the baseline left it: no branch of the overlay has run. *)
Theorem C6_baseline_error_is_returned autoA autoB :
  (∀ in_ m s e s1,
     autoA in_ m s = Ret (Some e) s1 →
     Convert_v1_NetworkPolicyPeer_To_networking_NetworkPolicyPeer autoA in_ m s
       = Ret (Some e) s1) ∧
  (∀ in_ m s e s1,
     autoB in_ m s = Ret (Some e) s1 →
     Convert_networking_NetworkPolicyPeer_To_v1_NetworkPolicyPeer autoB in_ m s
       = Ret (Some e) s1).
Proof.
  split; intros in_ m s e s1 H.
  - by apply Convert_v1_failed.
  - by apply Convert_networking_failed.
Qed.

Lemma C6_baseline_error_is_returned_witness :
  Convert_v1_NetworkPolicyPeer_To_networking_NetworkPolicyPeer
    (tests.failing "selector") tests.both tests.mismatched_cells
    tests.fresh_networking
    = Ret (Some "selector") tests.fresh_networking ∧
  Convert_networking_NetworkPolicyPeer_To_v1_NetworkPolicyPeer
    (tests.failing "selector") tests.two_blocks
    (tests.networking_cells "192.168.1.0/24" "192.168.2.0/24")
    tests.allocated_v1
    = Ret (Some "selector") tests.allocated_v1.
Proof.
  destruct (C6_baseline_error_is_returned
              (tests.failing "selector") (tests.failing "selector"))
    as [HA HB].
  split; [apply HA | apply HB]; reflexivity.
Defined.

(** C7: when the singular [IPBlock] holds a non-empty address range and the
    list [IPBlocks] is empty, the v1 -> internal conversion (its baseline copy
    having succeeded) returns a list of exactly one block, which carries the
    address range of [IPBlock]. *)
Theorem C7_only_IPBlock_becomes_the_list auto in_ m s s1 b :
  auto in_ m s = Ret None s1 →
  load m (v1.ipBlock in_) = Some b →
  v1.CIDR b ≠ EmptyString →
  v1.ipBlocks in_ = [] →
  ∃ s2 l,
    Convert_v1_NetworkPolicyPeer_To_networking_NetworkPolicyPeer auto in_ m s
      = Ret None s2 ∧
    networking.IPBlocks (out s2) = [Some l] ∧
    cells s2 !! l = Some {| networking.CIDR := v1.CIDR b |} ∧
    networking_cidrs (cells s2) (networking.IPBlocks (out s2))
      = [Some (v1.CIDR b)].
Proof.
  intros H Hb Hc Hl.
  exists (with_single (v1.CIDR b) s1), (fresh (dom (cells s1))).
  rewrite (Convert_v1_overlay auto _ _ _ _ _ H Hb).
  unfold overwrites. rewrite Hl, (proj2 (nonempty_true _) Hc). cbn [andb].
  split_and!; [done..| |apply with_single_cidrs].
  unfold with_single; cbn. apply lookup_insert_eq.
Qed.

Lemma C7_only_IPBlock_becomes_the_list_witness :
  ∃ s2 l,
    v1_To_networking tests.only_primary tests.matching_cells
      tests.fresh_networking = Ret None s2 ∧
    networking.IPBlocks (out s2) = [Some l] ∧
    cells s2 !! l = Some {| networking.CIDR := "1.1.1.1" |} ∧
    networking_cidrs (cells s2) (networking.IPBlocks (out s2))
      = [Some "1.1.1.1"].
Proof.
  eapply (C7_only_IPBlock_becomes_the_list structural_copy_v1_To_networking
            tests.only_primary tests.matching_cells tests.fresh_networking _
            {| v1.CIDR := "1.1.1.1" |}).
  - vm_compute; reflexivity.
  - vm_compute; reflexivity.
  - discriminate.
  - reflexivity.
Defined.

(** C8: when the internal list is empty, the internal -> v1 conversion
    returns what its baseline copy produced, untouched: with a baseline that
    copies the list and leaves the singular field alone, an output that
    started with a nil [IPBlock] still has a nil [IPBlock], and its list
    [IPBlocks] is empty. *)
Theorem C8_no_block_leaves_IPBlock_zero auto in_ m s s1 :
  auto in_ m s = Ret None s1 →
  v1.ipBlock (out s1) = v1.ipBlock (out s) →
  v1_cidrs (cells s1) (v1.ipBlocks (out s1))
    = networking_cidrs m (networking.IPBlocks in_) →
  networking.IPBlocks in_ = [] →
  v1.ipBlock (out s) = None →
  ∃ s2,
    Convert_networking_NetworkPolicyPeer_To_v1_NetworkPolicyPeer auto in_ m s
      = Ret None s2 ∧
    s2 = s1 ∧
    v1.ipBlock (out s2) = None ∧
    v1.ipBlocks (out s2) = [].
Proof.
  intros H Hkeep Hcopy Hl Hzero. exists s1.
  rewrite (Convert_networking_no_block auto _ _ _ _ H Hl).
  split_and!; [done..|congruence|].
  rewrite Hl in Hcopy. by apply fmap_nil_inv in Hcopy.
Qed.

Lemma C8_no_block_leaves_IPBlock_zero_witness :
  ∃ s2,
    networking_To_v1 tests.no_block
      (tests.networking_cells "192.168.1.0/24" "192.168.2.0/24")
      tests.fresh_v1 = Ret None s2 ∧
    s2 = tests.fresh_v1 ∧
    v1.ipBlock (out s2) = None ∧
    v1.ipBlocks (out s2) = [].
Proof.
  apply (C8_no_block_leaves_IPBlock_zero structural_copy_networking_To_v1
           tests.no_block
           (tests.networking_cells "192.168.1.0/24" "192.168.2.0/24")
           tests.fresh_v1 tests.fresh_v1); reflexivity.
Defined.

(** C9: on top of a baseline that copied the address ranges of [IPBlocks]
    verbatim, the v1 -> internal conversion returns (and it does return as
    soon as [IPBlock] points to a block) a list that fabricates nothing: every
    address range in it is one of the input list or the one of [IPBlock]; and
    what it keeps of the input list is kept in the original order: the result
    is a subsequence of the input list, or else the single range of
    [IPBlock]. *)
Theorem C9_nothing_fabricated_order_kept auto in_ m s s1 :
  auto in_ m s = Ret None s1 →
  networking_cidrs (cells s1) (networking.IPBlocks (out s1))
    = v1_cidrs m (v1.ipBlocks in_) →
  (is_Some (load m (v1.ipBlock in_)) →
   ∃ s2,
     Convert_v1_NetworkPolicyPeer_To_networking_NetworkPolicyPeer auto in_ m s
       = Ret None s2) ∧
  (∀ e s2,
     Convert_v1_NetworkPolicyPeer_To_networking_NetworkPolicyPeer auto in_ m s
       = Ret e s2 →
     let result := networking_cidrs (cells s2) (networking.IPBlocks (out s2)) in
     let primary := v1.CIDR <$> load m (v1.ipBlock in_) in
     (∀ c, c ∈ result → c ∈ v1_cidrs m (v1.ipBlocks in_) ∨ c = primary) ∧
     (result `sublist_of` v1_cidrs m (v1.ipBlocks in_) ∨ result = [primary])).
Proof.
  intros H Hcopy. split.
  - intros [b Hb]. rewrite (Convert_v1_overlay auto _ _ _ _ _ H Hb). eauto.
  - intros e s2 Hrun.
    destruct (Convert_v1_returns auto _ _ _ _ _ _ H Hrun) as (-> & b & Hb & ->).
    cbn zeta. rewrite Hb.
    destruct (overwrites in_ b).
    + rewrite with_single_cidrs. split; [|by right].
      intros c ->%list_elem_of_singleton. by right.
    + rewrite Hcopy. split; [|by left]. intros c Hc. by left.
Qed.

Lemma C9_nothing_fabricated_order_kept_witness :
  ∃ s2,
    v1_To_networking tests.both tests.empty_cells tests.fresh_networking
      = Ret None s2 ∧
    (∀ c, c ∈ networking_cidrs (cells s2) (networking.IPBlocks (out s2)) →
          c ∈ [Some "1.1.1.1"; Some "2.2.2.2"] ∨ c = Some EmptyString) ∧
    (networking_cidrs (cells s2) (networking.IPBlocks (out s2))
       `sublist_of` [Some "1.1.1.1"; Some "2.2.2.2"] ∨
     networking_cidrs (cells s2) (networking.IPBlocks (out s2))
       = [Some EmptyString]).
Proof.
  destruct (C9_nothing_fabricated_order_kept structural_copy_v1_To_networking
              tests.both tests.empty_cells tests.fresh_networking
              (Store {| networking.IPBlocks := [Some 1%positive; Some 2%positive] |}
                 (list_to_map
                    [(1%positive, {| networking.CIDR := "1.1.1.1" |});
                     (2%positive, {| networking.CIDR := "2.2.2.2" |})])))
    as [Hret Hres].
  - vm_compute; reflexivity.
  - vm_compute; reflexivity.
  - destruct Hret as [s2 Hrun].
    + vm_compute; eauto.
    + exists s2. split; [exact Hrun|]. exact (Hres None s2 Hrun).
Defined.

(** C10: on top of a baseline that copied the address ranges of [IPBlocks]
    verbatim, whatever the v1 -> internal conversion returns has one of two
    shapes: the verbatim copy of the input list, or the single address range
    of [IPBlock].  When the address range of [IPBlock] is the empty string,
    no branch overwrites and the result is the baseline's copy, whether or
    not [IPBlock] is a block of its own, distinct from [IPBlocks[0]]. *)
Theorem C10_two_shapes auto in_ m s s1 :
  auto in_ m s = Ret None s1 →
  networking_cidrs (cells s1) (networking.IPBlocks (out s1))
    = v1_cidrs m (v1.ipBlocks in_) →
  (∀ e s2,
     Convert_v1_NetworkPolicyPeer_To_networking_NetworkPolicyPeer auto in_ m s
       = Ret e s2 →
     networking_cidrs (cells s2) (networking.IPBlocks (out s2))
       = v1_cidrs m (v1.ipBlocks in_) ∨
     ∃ b, load m (v1.ipBlock in_) = Some b ∧
          networking_cidrs (cells s2) (networking.IPBlocks (out s2))
            = [Some (v1.CIDR b)]) ∧
  (∀ b, load m (v1.ipBlock in_) = Some b → v1.CIDR b = EmptyString →
     Convert_v1_NetworkPolicyPeer_To_networking_NetworkPolicyPeer auto in_ m s
       = Ret None s1).
Proof.
  intros H Hcopy. split.
  - intros e s2 Hrun.
    destruct (Convert_v1_returns auto _ _ _ _ _ _ H Hrun) as (-> & b & Hb & ->).
    destruct (overwrites in_ b).
    + right. exists b. split; [done|]. apply with_single_cidrs.
    + by left.
  - intros b Hb Hc. rewrite (Convert_v1_overlay auto _ _ _ _ _ H Hb).
    unfold overwrites. by rewrite (proj2 (nonempty_false _) Hc).
Qed.

Lemma C10_two_shapes_witness :
  ∃ s1,
    v1_To_networking tests.both tests.empty_cells tests.fresh_networking
      = Ret None s1 ∧
    structural_copy_v1_To_networking tests.both tests.empty_cells
      tests.fresh_networking = Ret None s1 ∧
    networking_cidrs (cells s1) (networking.IPBlocks (out s1))
      = [Some "1.1.1.1"; Some "2.2.2.2"].
Proof.
  eexists. split; [|split].
  - eapply (C10_two_shapes structural_copy_v1_To_networking
              tests.both tests.empty_cells tests.fresh_networking).
    + vm_compute; reflexivity.
    + vm_compute; reflexivity.
    + vm_compute; reflexivity.
    + reflexivity.
  - vm_compute; reflexivity.
  - vm_compute; reflexivity.
Defined.

(** * Further properties of conversion.go *)

Lemma cidrs_insert_other (h : gmap positive v1.IPBlock) l b (ps : list ptr) :
  Some l ∉ ps → v1_cidrs (<[l := b]> h) ps = v1_cidrs h ps.
Proof.
  intros Hl. unfold v1_cidrs. apply list_fmap_ext; intros i p Hp.
  destruct p as [l'|]; [|done]. cbn.
  rewrite lookup_insert_ne; [done|].
  intros ->. apply Hl. eapply list_elem_of_lookup_2. exact Hp.
Qed.

(** X1: when the singular [IPBlock] is the very pointer stored in
    [IPBlocks[0]], the v1 -> internal conversion leaves the baseline's output
    as it is, whatever the address range of the block: the comparison of
    line 30 is one of pointers. *)
Theorem X1_same_pointer_leaves_baseline auto in_ m s s1 b rest :
  auto in_ m s = Ret None s1 →
  load m (v1.ipBlock in_) = Some b →
  v1.ipBlocks in_ = v1.ipBlock in_ :: rest →
  Convert_v1_NetworkPolicyPeer_To_networking_NetworkPolicyPeer auto in_ m s
    = Ret None s1.
Proof.
  intros H Hb Hl. rewrite (Convert_v1_overlay auto _ _ _ _ _ H Hb).
  unfold overwrites. rewrite Hl, bool_decide_eq_true_2 by done.
  by rewrite andb_false_r.
Qed.

Lemma X1_same_pointer_leaves_baseline_witness :
  observe_networking
    (v1_To_networking
       {| v1.ipBlock := Some 2%positive;
          v1.ipBlocks := [Some 2%positive; Some 3%positive] |}
       tests.matching_cells tests.fresh_networking)
  = Some (None, [Some "1.1.1.1"; Some "2.2.2.2"]).
Proof.
  unfold v1_To_networking.
  erewrite (X1_same_pointer_leaves_baseline structural_copy_v1_To_networking
              _ tests.matching_cells tests.fresh_networking _
              {| v1.CIDR := "1.1.1.1" |} [Some 3%positive]); cycle 1.
  - vm_compute; reflexivity.
  - vm_compute; reflexivity.
  - reflexivity.
  - by vm_compute.
Defined.

(** X2: when the singular [IPBlock] is nil and the baseline has returned
    without error, the v1 -> internal conversion panics: line 30 reads
    [in.IPBlock.CIDR] before anything else. *)
Theorem X2_nil_IPBlock_panics auto in_ m s s1 :
  auto in_ m s = Ret None s1 →
  v1.ipBlock in_ = None →
  Convert_v1_NetworkPolicyPeer_To_networking_NetworkPolicyPeer auto in_ m s
    = Panicked.
Proof.
  intros H Hnil. apply (Convert_v1_nil auto _ _ _ _ H). by rewrite Hnil.
Qed.

Lemma X2_nil_IPBlock_panics_witness :
  v1_To_networking tests.only_list tests.matching_cells tests.fresh_networking
    = Panicked.
Proof.
  eapply (X2_nil_IPBlock_panics structural_copy_v1_To_networking).
  - vm_compute; reflexivity.
  - reflexivity.
Defined.

(** X3: the overlay of the v1 -> internal conversion only ever allocates:
    every block the baseline left in the output heap is still there,
    unchanged, and when the list is overwritten its one block sits at an
    address the baseline had not used. *)
Theorem X3_overlay_only_allocates auto in_ m s s1 e s2 :
  auto in_ m s = Ret None s1 →
  Convert_v1_NetworkPolicyPeer_To_networking_NetworkPolicyPeer auto in_ m s
    = Ret e s2 →
  cells s1 ⊆ cells s2 ∧
  (s2 = s1 ∨
   ∃ l, networking.IPBlocks (out s2) = [Some l] ∧ cells s1 !! l = None).
Proof.
  intros H Hrun.
  destruct (Convert_v1_returns auto _ _ _ _ _ _ H Hrun) as (-> & b & Hb & ->).
  destruct (overwrites in_ b); [|by split; [|left]].
  split.
  - apply insert_subseteq, fresh_cell_unused.
  - right. exists (fresh (dom (cells s1))). split; [done|].
    apply fresh_cell_unused.
Qed.

Lemma X3_overlay_only_allocates_witness :
  ∃ s1 s2,
    structural_copy_v1_To_networking tests.both tests.mismatched_cells
      tests.fresh_networking = Ret None s1 ∧
    v1_To_networking tests.both tests.mismatched_cells tests.fresh_networking
      = Ret None s2 ∧
    cells s1 ⊆ cells s2 ∧
    (s2 = s1 ∨
     ∃ l, networking.IPBlocks (out s2) = [Some l] ∧ cells s1 !! l = None).
Proof.
  eexists _, _. split; [vm_compute; reflexivity|].
  split; [vm_compute; reflexivity|].
  eapply (X3_overlay_only_allocates structural_copy_v1_To_networking
            tests.both tests.mismatched_cells tests.fresh_networking).
  - vm_compute; reflexivity.
  - vm_compute; reflexivity.
Defined.

(** X4: when the internal list starts with a block and the caller has
    allocated the singular [IPBlock] of the output, the internal -> v1
    conversion writes the address range of the first internal block into that
    [IPBlock], keeps the pointer and the list of the baseline's output, and
    touches no other cell; so, if that cell is none of the list's, the list
    still holds the address ranges the baseline put there. *)
Theorem X4_allocated_IPBlock_gets_first_block
    auto in_ m s s1 first rest b l b0 :
  auto in_ m s = Ret None s1 →
  networking.IPBlocks in_ = first :: rest →
  load m first = Some b →
  v1.ipBlock (out s1) = Some l →
  cells s1 !! l = Some b0 →
  ∃ s2,
    Convert_networking_NetworkPolicyPeer_To_v1_NetworkPolicyPeer auto in_ m s
      = Ret None s2 ∧
    out s2 = out s1 ∧
    v1.CIDR <$> load (cells s2) (v1.ipBlock (out s2))
      = Some (networking.CIDR b) ∧
    (∀ l', l' ≠ l → cells s2 !! l' = cells s1 !! l') ∧
    (Some l ∉ v1.ipBlocks (out s1) →
     v1_cidrs (cells s2) (v1.ipBlocks (out s2))
       = v1_cidrs (cells s1) (v1.ipBlocks (out s1))).
Proof.
  intros H Hl Hb Hp Hc.
  rewrite (Convert_networking_assign auto _ _ _ _ _ _ _ _ _ H Hl Hb Hp Hc).
  eexists; split_and!; [done..| | |]; cbn.
  - rewrite Hp; cbn. by rewrite lookup_insert_eq.
  - intros l' Hne. by rewrite lookup_insert_ne.
  - apply cidrs_insert_other.
Qed.

Lemma X4_allocated_IPBlock_gets_first_block_witness :
  observe_v1
    (networking_To_v1 tests.two_blocks
       (tests.networking_cells "192.168.1.0/24" "192.168.2.0/24")
       tests.allocated_v1)
  = Some (None, (Some "192.168.1.0/24",
                 [Some "192.168.1.0/24"; Some "192.168.2.0/24"])).
Proof.
  destruct (X4_allocated_IPBlock_gets_first_block
              structural_copy_networking_To_v1 tests.two_blocks
              (tests.networking_cells "192.168.1.0/24" "192.168.2.0/24")
              tests.allocated_v1
              (Store {| v1.ipBlock := Some 1%positive;
                        v1.ipBlocks := [Some 2%positive; Some 3%positive] |}
                 (list_to_map
                    [(1%positive, {| v1.CIDR := EmptyString |});
                     (2%positive, {| v1.CIDR := "192.168.1.0/24" |});
                     (3%positive, {| v1.CIDR := "192.168.2.0/24" |})]))
              (Some 1%positive) [Some 2%positive]
              {| networking.CIDR := "192.168.1.0/24" |} 1%positive
              {| v1.CIDR := EmptyString |})
    as (s2 & Hrun & Hout & Hprimary & _ & Hlist).
  - vm_compute; reflexivity.
  - reflexivity.
  - vm_compute; reflexivity.
  - reflexivity.
  - vm_compute; reflexivity.
  - unfold networking_To_v1. rewrite Hrun. unfold observe_v1.
    rewrite Hprimary, Hlist.
    + by vm_compute.
    + cbn. rewrite !not_elem_of_cons.
      split_and!; [discriminate..|apply not_elem_of_nil].
Defined.

(** X5: when the internal list is not empty, the internal -> v1 conversion
    panics if the baseline's output has a nil [IPBlock], and it panics if
    the first element of the list is nil: line 57 goes through both
    pointers. *)
Theorem X5_nil_pointer_panics auto in_ m s s1 first rest :
  auto in_ m s = Ret None s1 →
  networking.IPBlocks in_ = first :: rest →
  load (cells s1) (v1.ipBlock (out s1)) = None ∨ load m first = None →
  Convert_networking_NetworkPolicyPeer_To_v1_NetworkPolicyPeer auto in_ m s
    = Panicked.
Proof.
  intros H Hl [Hnil|Hnil].
  - by apply (Convert_networking_nil_out auto _ _ _ _ _ _ H Hl).
  - unfold Convert_networking_NetworkPolicyPeer_To_v1_NetworkPolicyPeer.
    rewrite bind_run, H, Hl. run_go. by rewrite Hnil.
Qed.

Lemma X5_nil_pointer_panics_witness :
  networking_To_v1 {| networking.IPBlocks := [None] |} ∅ tests.allocated_v1
    = Panicked.
Proof.
  eapply (X5_nil_pointer_panics structural_copy_networking_To_v1).
  - vm_compute; reflexivity.
  - reflexivity.
  - right. reflexivity.
Defined.

(** * Properties of record_flags.go *)

Import genericclioptions.

(** ** The recorders *)

Lemma ChangeCauseRecorder_Record_object cause a :
  ChangeCauseRecorder_Record cause (meta.object a) =
    Ret None
      (meta.object (Some (<[ChangeCauseAnnotation := cause]> (default ∅ a)))).
Proof. by destruct a. Qed.


Lemma annotationExists_object a :
  annotationExists (meta.object a) = map_found a ChangeCauseAnnotation.
Proof. done. Qed.

Lemma ChangeCauseUpdateRecorder_Record_run cause obj :
  ChangeCauseUpdateRecorder_Record cause obj =
    if annotationExists obj then ChangeCauseRecorder_Record cause obj
    else Ret None obj.
Proof.
  unfold ChangeCauseUpdateRecorder_Record. rewrite bind_run. cbn.
  by destruct (annotationExists obj).
Qed.


(** X7: [ChangeCauseRecorder.Record] on an object with an accessor returns
    nil and sets the change-cause annotation to the recorder's cause, also
    when the annotations were a nil map; recording a second cause after a
    first leaves exactly what recording the second alone leaves. *)
Theorem X7_last_recorded_cause_wins cause1 cause2 obj :
  (ChangeCauseRecorder_Record cause1 ≫= λ _, ChangeCauseRecorder_Record cause2)
    obj = ChangeCauseRecorder_Record cause2 obj ∧
  (meta.Accessor obj = None →
   ∃ obj', ChangeCauseRecorder_Record cause2 obj = Ret None obj' ∧
           annotation obj' ChangeCauseAnnotation = Some cause2 ∧
           annotationExists obj' = true).
Proof.
  split.
  - rewrite bind_run. destruct obj as [e|a]; [done|].
    rewrite !ChangeCauseRecorder_Record_object. cbn [default from_option id].
    by rewrite insert_insert_eq.
  - intros Hacc. destruct obj as [e|a]; [done|].
    rewrite ChangeCauseRecorder_Record_object. eexists; split_and!; [done| |].
    + cbn. apply lookup_insert_eq.
    + cbn. rewrite lookup_insert_eq. by apply bool_decide_eq_true_2.
Qed.

(** X8: [ChangeCauseUpdateRecorder.Record] never returns an error and never
    adds the annotation: an object without the change-cause annotation (no
    key, a nil map, or no accessor) comes back as it was, and an object with
    it comes back with the recorder's cause. *)
Theorem X8_update_recorder_never_adds cause obj :
  ∃ obj',
    ChangeCauseUpdateRecorder_Record cause obj = Ret None obj' ∧
    annotationExists obj' = annotationExists obj ∧
    (annotationExists obj = false → obj' = obj) ∧
    (annotationExists obj = true →
     annotation obj' ChangeCauseAnnotation = Some cause).
Proof.
  rewrite ChangeCauseUpdateRecorder_Record_run.
  destruct (annotationExists obj) eqn:Hex; [|by eexists].
  destruct obj as [e|a]; [done|].
  rewrite ChangeCauseRecorder_Record_object. eexists; split_and!; [done| |done|].
  - cbn. rewrite lookup_insert_eq. by apply bool_decide_eq_true_2.
  - intros _. cbn. apply lookup_insert_eq.
Qed.

(** X9: on an object for which [meta.Accessor] fails, [ChangeCauseRecorder]
    returns the accessor's error, while [NoopRecorder] and
    [ChangeCauseUpdateRecorder] return nil; none of them touches the
    object. *)
Theorem X9_accessor_error rec e :
  Record_obj rec (meta.not_an_object e) =
    Ret (match rec with
         | ChangeCauseRecorder _ => Some e
         | _ => None
         end) (meta.not_an_object e).
Proof. by destruct rec. Qed.

(** ** The flags *)

Lemma read_run {O B} (p : ptr) (s : store O B) :
  read p s = match load (cells s) p with
             | Some b => Ret b s
             | None => Panicked
             end.
Proof. unfold read, must. by destruct (load (cells s) p). Qed.

(** [ToRecorder] on flags whose pointers are nil or allocated. *)
Lemma ToRecorder_run s f :
  out s = Some f →
  allocated (cells s) (Record_ f) →
  allocated (cells s) (Update f) →
  ToRecorder s =
    Ret (if default false (load (cells s) (Record_ f))
         then ChangeCauseRecorder (changeCause f)
         else if default true (load (cells s) (Update f))
              then ChangeCauseUpdateRecorder (changeCause f)
              else NoopRecorder, None) s.
Proof.
  intros Hf Hr Hu. unfold ToRecorder.
  rewrite bind_run. unfold get_out. rewrite Hf.
  destruct (Record_ f) as [r|], (Update f) as [u|]; cbn in Hr, Hu;
    repeat match goal with H : is_Some _ |- _ => destruct H as [? H] end;
    repeat (rewrite ?bind_run, ?read_run; cbn; rewrite ?Hr, ?Hu; cbn);
    unfold NewChangeCauseUpdateRecorder;
    repeat match goal with b : bool |- _ => destruct b end; done.
Qed.

(** X10: on flags whose two pointers are nil or allocated, [ToRecorder]
    returns without error and without changing anything, a nil [Record]
    counting as false and a nil [Update] as true; calling [Record] of the
    recorder it returns on an object with an accessor sets the change-cause
    annotation to the flags' cause when [Record] is true, or when [Update] is
    true and the object has the annotation already, and leaves the object as
    it was otherwise. *)
Theorem X10_recorder_follows_flags s f :
  out s = Some f →
  allocated (cells s) (Record_ f) →
  allocated (cells s) (Update f) →
  ∃ rec,
    ToRecorder s = Ret (rec, None) s ∧
    ∀ a,
      Record_obj rec (meta.object a) =
        if default false (load (cells s) (Record_ f))
           || default true (load (cells s) (Update f))
              && map_found a ChangeCauseAnnotation
        then Ret None
               (meta.object
                  (Some (<[ChangeCauseAnnotation := changeCause f]>
                           (default ∅ a))))
        else Ret None (meta.object a).
Proof.
  intros Hf Hr Hu. eexists. split; [by apply ToRecorder_run|].
  intros a.
  destruct (default false (load (cells s) (Record_ f))); cbn [orb Record_obj].
  - apply ChangeCauseRecorder_Record_object.
  - destruct (default true (load (cells s) (Update f))); cbn [andb Record_obj].
    + rewrite ChangeCauseUpdateRecorder_Record_run, annotationExists_object.
      destruct (map_found a ChangeCauseAnnotation); [|done].
      apply ChangeCauseRecorder_Record_object.
    + done.
Qed.

Lemma X10_recorder_follows_flags_witness :
  ∃ rec,
    ToRecorder (record_tests.flags false true)
      = Ret (rec, None) (record_tests.flags false true) ∧
    Record_obj rec record_tests.annotated
      = Ret None (meta.object (Some {[ ChangeCauseAnnotation := EmptyString ]})) ∧
    Record_obj rec record_tests.bare = Ret None record_tests.bare.
Proof.
  destruct (X10_recorder_follows_flags (record_tests.flags false true) _
              eq_refl) as (rec & Hrun & Hrec).
  - vm_compute; eauto.
  - vm_compute; eauto.
  - exists rec. split; [exact Hrun|]. split.
    + unfold record_tests.annotated. rewrite Hrec. vm_compute. reflexivity.
    + unfold record_tests.bare. rewrite Hrec. vm_compute. reflexivity.
Defined.

(** ** The recorded command line *)

Lemma parseFunc_classified flags c c' :
  same_but_classified c c' → parseFunc flags c = parseFunc flags c'.
Proof.
  destruct c as [fl v], c' as [fl' v']. intros [Hfl Hv]; cbn in *. subst fl'.
  unfold parseFunc; cbn. destruct (classified fl); cbn; [done|].
  by rewrite Hv.
Qed.

Lemma foldl_parseFunc_classified flags cs cs' :
  Forall2 same_but_classified cs cs' →
  foldl parseFunc flags cs = foldl parseFunc flags cs'.
Proof.
  intros H. revert flags. induction H as [|c c' cs cs' Hc _ IH]; intros flags.
  - done.
  - cbn. rewrite (parseFunc_classified _ _ _ Hc). apply IH.
Qed.

(** [parseCommandArguments] always returns, and leaves the object of the
    store alone. *)
Lemma parseCommandArguments_returns {O} os_Args Base cmd (s : store O bool) :
  ∃ cause fs h,
    parseCommandArguments os_Args Base cmd s = Ret (cause, fs) (Store (out s) h).
Proof.
  unfold parseCommandArguments. destruct os_Args as [|arg0 rest]; cbn.
  - destruct s. by eexists _, _, _.
  - rewrite bind_run; cbn. case_match; by eexists _, _, _.
Qed.

(** X11: the values of classified flags do not show in the recorded command
    line: two commands whose parsing differs only in the values handed to
    [parseFunc] for classified flags give the same result. *)
Theorem X11_classified_values_do_not_show {O}
    os_Args Base cmd cmd' (s : store O bool) :
  cobra.Flags cmd = cobra.Flags cmd' →
  cobra.err (cobra.ParseAll cmd (drop 1 os_Args))
    = cobra.err (cobra.ParseAll cmd' (drop 1 os_Args)) →
  cobra.after (cobra.ParseAll cmd (drop 1 os_Args))
    = cobra.after (cobra.ParseAll cmd' (drop 1 os_Args)) →
  cobra.stores (cobra.ParseAll cmd (drop 1 os_Args)) (cells s)
    = cobra.stores (cobra.ParseAll cmd' (drop 1 os_Args)) (cells s) →
  Forall2 same_but_classified
    (cobra.calls (cobra.ParseAll cmd (drop 1 os_Args)))
    (cobra.calls (cobra.ParseAll cmd' (drop 1 os_Args))) →
  parseCommandArguments os_Args Base cmd s
    = parseCommandArguments os_Args Base cmd' s.
Proof.
  intros Hflags Herr Hafter Hstores Hcalls. unfold parseCommandArguments.
  rewrite Hflags, Herr, Hafter, (foldl_parseFunc_classified _ _ _ Hcalls).
  destruct (length os_Args =? 0); [done|].
  rewrite !bind_run. cbn. by rewrite Hstores.
Qed.

Lemma X11_classified_values_do_not_show_witness :
  parseCommandArguments record_tests.os_Args record_tests.Base
    (record_tests.command false "s3cr3t") (record_tests.flags false true)
  = parseCommandArguments record_tests.os_Args record_tests.Base
      (record_tests.command false "hunter2") (record_tests.flags false true)
  ∧ ∃ fs s',
      parseCommandArguments record_tests.os_Args record_tests.Base
        (record_tests.command false "s3cr3t") (record_tests.flags false true)
      = Ret ("change_cmd some_argument --record=false --token=CLASSIFIED", fs) s'.
Proof.
  split.
  - apply X11_classified_values_do_not_show; try reflexivity.
    repeat constructor; cbn; by vm_compute.
  - eexists _, _. vm_compute. reflexivity.
Defined.

(** X12: [parseCommandArguments] returns the empty string when [os.Args] is
    empty, when [ParseAll] returns an error and when the flag set does not
    report itself parsed; with empty [os.Args] nothing is parsed at all: the
    flag set and the bound variables are as they were. *)
Theorem X12_nothing_recorded {O} os_Args Base cmd (s : store O bool) :
  os_Args = [] ∨
  cobra.err (cobra.ParseAll cmd (drop 1 os_Args)) ≠ None ∨
  cobra.Parsed (cobra.after (cobra.ParseAll cmd (drop 1 os_Args))) = false →
  ∃ fs s',
    parseCommandArguments os_Args Base cmd s = Ret (EmptyString, fs) s' ∧
    (os_Args = [] → fs = cobra.Flags cmd ∧ s' = s).
Proof.
  intros Hcase. unfold parseCommandArguments.
  destruct os_Args as [|arg0 rest]; cbn [length Nat.eqb].
  - by eexists _, _.
  - rewrite bind_run. cbn -[drop].
    destruct Hcase as [?|[Herr|Hparsed]]; [done| |].
    + rewrite bool_decide_eq_true_2 by done. cbn -[drop]. by eexists _, _.
    + rewrite Hparsed, orb_true_r. by eexists _, _.
Qed.

Lemma X12_nothing_recorded_witness :
  ∃ fs s',
    parseCommandArguments record_tests.os_Args record_tests.Base
      record_tests.broken_command (record_tests.flags false true)
    = Ret (EmptyString, fs) s'.
Proof.
  destruct (X12_nothing_recorded record_tests.os_Args record_tests.Base
              record_tests.broken_command (record_tests.flags false true))
    as (fs & s' & Hrun & _).
  - right; left. discriminate.
  - by exists fs, s'.
Defined.

(** ** Complete *)

(** [Complete] after its call of [parseCommandArguments]. *)
Lemma Complete_run os_Args Base cmd s f cause fs s1 :
  out s = Some f →
  parseCommandArguments os_Args Base cmd s = Ret (cause, fs) s1 →
  Complete os_Args Base cmd s =
    let s2 := Store (Some {| Record_ := Record_ f; Update := Update f;
                             changeCause := cause |}) (cells s1) in
    if cobra.Changed fs "record" then
      match load (cells s1) (Record_ f) with
      | None => Panicked
      | Some true => Ret None s2
      | Some false =>
          match Update f with
          | Some u =>
              match cells s1 !! u with
              | Some _ => Ret None (Store (out s2) (<[u := false]> (cells s1)))
              | None => Panicked
              end
          | None => Panicked
          end
      end
    else Ret None s2.
Proof.
  intros Hf Hparse. unfold Complete.
  rewrite bind_run. unfold get_out. rewrite Hf, bind_run, Hparse. cbn.
  destruct (cobra.Changed fs "record"); [|done].
  rewrite bind_run. unfold set_out. rewrite !bind_run, read_run. cbn [cells].
  destruct (load (cells s1) (Record_ f)) as [[]|]; [done| |done].
  cbn. destruct (Update f) as [u|]; [|done].
  unfold assign. cbn. by destruct (cells s1 !! u).
Qed.

(** X13: when the flag set reports [--record] as changed and the variable
    behind [Record] holds false after parsing, [Complete] stores false into
    the variable behind [Update], and [ToRecorder] called next returns the
    [NoopRecorder]: an explicit [--record=false] switches recording off, also
    for objects that have the annotation. *)
Theorem X13_explicit_false_switches_off
    os_Args Base cmd s f cause fs s1 r u :
  out s = Some f →
  parseCommandArguments os_Args Base cmd s = Ret (cause, fs) s1 →
  cobra.Changed fs "record" = true →
  Record_ f = Some r →
  cells s1 !! r = Some false →
  Update f = Some u →
  is_Some (cells s1 !! u) →
  ∃ s2,
    (Complete os_Args Base cmd ≫= λ _, ToRecorder) s
      = Ret (NoopRecorder, None) s2 ∧
    out s2 = Some {| Record_ := Some r; Update := Some u;
                     changeCause := cause |} ∧
    cells s2 = <[u := false]> (cells s1).
Proof.
  intros Hf Hparse Hchanged Hr Hrv Hu [v Huv].
  rewrite bind_run, (Complete_run _ _ _ _ _ _ _ _ Hf Hparse), Hchanged.
  rewrite Hr, Hu; cbn. rewrite Hrv, Huv; cbn.
  exists (Store (Some {| Record_ := Some r; Update := Some u;
                         changeCause := cause |}) (<[u := false]> (cells s1))).
  split; [|done].
  erewrite ToRecorder_run; [|done|..]; cbn.
  - rewrite lookup_insert_eq; cbn.
    destruct (decide (u = r)) as [->|Hne].
    + by rewrite lookup_insert_eq.
    + by rewrite lookup_insert_ne, Hrv.
  - destruct (decide (u = r)) as [->|Hne].
    + rewrite lookup_insert_eq; eauto.
    + rewrite lookup_insert_ne, Hrv by done; eauto.
  - rewrite lookup_insert_eq; eauto.
Qed.

Lemma X13_explicit_false_switches_off_witness :
  ∃ s2,
    (Complete record_tests.os_Args record_tests.Base
       (record_tests.command false "s3cr3t") ≫= λ _, ToRecorder)
      (record_tests.flags false true)
      = Ret (NoopRecorder, None) s2 ∧
    cells s2 !! 2%positive = Some false.
Proof.
  destruct (X13_explicit_false_switches_off
              record_tests.os_Args record_tests.Base
              (record_tests.command false "s3cr3t")
              (record_tests.flags false true) _
              "change_cmd some_argument --record=false --token=CLASSIFIED"
              (cobra.after (cobra.ParseAll (record_tests.command false "s3cr3t") []))
              (Store (out (record_tests.flags false true))
                 (<[1%positive := false]> (cells (record_tests.flags false true))))
              1%positive 2%positive eq_refl)
    as (s2 & Hrun & _ & Hcells).
  - vm_compute; reflexivity.
  - reflexivity.
  - reflexivity.
  - vm_compute; reflexivity.
  - reflexivity.
  - vm_compute; eauto.
  - exists s2. split; [exact Hrun|]. rewrite Hcells. apply lookup_insert_eq.
Defined.

(** X14: when the flag set reports [--record] as changed, [Complete] panics
    if [Record] is nil, and it panics if the variable behind [Record] holds
    false and [Update] is nil; [ToRecorder] takes both nil pointers in its
    stride, [Complete] does not. *)
Theorem X14_Complete_panics_on_nil os_Args Base cmd s f cause fs s1 :
  out s = Some f →
  parseCommandArguments os_Args Base cmd s = Ret (cause, fs) s1 →
  cobra.Changed fs "record" = true →
  Record_ f = None ∨
  (load (cells s1) (Record_ f) = Some false ∧ Update f = None) →
  Complete os_Args Base cmd s = Panicked.
Proof.
  intros Hf Hparse Hchanged Hnil.
  rewrite (Complete_run _ _ _ _ _ _ _ _ Hf Hparse), Hchanged; cbn.
  destruct Hnil as [->|[-> ->]]; done.
Qed.

Lemma X14_Complete_panics_on_nil_witness :
  Complete record_tests.os_Args record_tests.Base
    (record_tests.command false "s3cr3t")
    (record_tests.flags_without_Update false) = Panicked ∧
  ∃ rec, ToRecorder (record_tests.flags_without_Update false)
         = Ret (rec, None) (record_tests.flags_without_Update false).
Proof.
  split.
  - eapply (X14_Complete_panics_on_nil record_tests.os_Args record_tests.Base
              (record_tests.command false "s3cr3t")
              (record_tests.flags_without_Update false)).
    + reflexivity.
    + vm_compute; reflexivity.
    + reflexivity.
    + right. split; [vm_compute|]; reflexivity.
  - eexists. vm_compute. reflexivity.
Defined.

(** X15: when the flag set does not report [--record] as changed, or the
    variable behind [Record] holds true after parsing, [Complete] only sets
    the change cause to the recorded command line: the pointers of the flags
    stay, and the variables are as parsing left them. *)
Theorem X15_Complete_sets_the_cause os_Args Base cmd s f cause fs s1 :
  out s = Some f →
  parseCommandArguments os_Args Base cmd s = Ret (cause, fs) s1 →
  cobra.Changed fs "record" = false ∨
  load (cells s1) (Record_ f) = Some true →
  Complete os_Args Base cmd s =
    Ret None (Store (Some {| Record_ := Record_ f; Update := Update f;
                             changeCause := cause |}) (cells s1)).
Proof.
  intros Hf Hparse Hcase.
  rewrite (Complete_run _ _ _ _ _ _ _ _ Hf Hparse); cbn.
  destruct Hcase as [->| ->]; [done|]. by destruct (cobra.Changed fs "record").
Qed.

Lemma X15_Complete_sets_the_cause_witness :
  ∃ s2,
    Complete record_tests.os_Args record_tests.Base
      (record_tests.command true "s3cr3t") (record_tests.flags false true)
      = Ret None s2 ∧
    (changeCause <$> out s2)
      = Some "change_cmd some_argument --record=true --token=CLASSIFIED" ∧
    ToRecorder s2
      = Ret (ChangeCauseRecorder
               "change_cmd some_argument --record=true --token=CLASSIFIED",
             None) s2.
Proof.
  eexists. split; [|split].
  - eapply (X15_Complete_sets_the_cause record_tests.os_Args record_tests.Base
              (record_tests.command true "s3cr3t")
              (record_tests.flags false true)).
    + reflexivity.
    + vm_compute; reflexivity.
    + right. vm_compute; reflexivity.
  - reflexivity.
  - vm_compute; reflexivity.
Defined.

(** X16: the flags made by [NewRecordFlags] point to two new, different
    variables, false for [Record] and true for [Update], and no variable
    that was there is changed; [ToRecorder] on them returns a
    [ChangeCauseUpdateRecorder] with the empty cause. *)
Theorem X16_NewRecordFlags_defaults (s : store (option RecordFlags) bool) :
  ∃ s' r u,
    (NewRecordFlags ≫= λ _, ToRecorder) s
      = Ret (ChangeCauseUpdateRecorder EmptyString, None) s' ∧
    out s' = Some {| Record_ := Some r; Update := Some u;
                     changeCause := EmptyString |} ∧
    r ≠ u ∧ cells s !! r = None ∧ cells s !! u = None ∧
    cells s' !! r = Some false ∧ cells s' !! u = Some true ∧
    cells s ⊆ cells s'.
Proof.
  set (r := fresh (dom (cells s))).
  set (h1 := <[r := false]> (cells s)).
  set (u := fresh (dom h1)).
  assert (cells s !! r = None) as Hr by apply fresh_cell_unused.
  assert (h1 !! u = None) as Hu by apply fresh_cell_unused.
  assert (r ≠ u) as Hne.
  { intros Heq. rewrite <-Heq in Hu. unfold h1 in Hu.
    by rewrite lookup_insert_eq in Hu. }
  assert (cells s !! u = None) as Hu'.
  { unfold h1 in Hu. by rewrite lookup_insert_ne in Hu. }
  exists (Store (Some {| Record_ := Some r; Update := Some u;
                         changeCause := EmptyString |}) (<[u := true]> h1)), r, u.
  split_and!; try done.
  - rewrite bind_run.
    change (NewRecordFlags s) with
      (Ret () (Store (Some {| Record_ := Some r; Update := Some u;
                              changeCause := EmptyString |}) (<[u := true]> h1))).
    cbv beta iota.
    erewrite ToRecorder_run; [|done|..]; cbn.
    + rewrite lookup_insert_ne by done. unfold h1.
      by rewrite lookup_insert_eq, lookup_insert_eq.
    + rewrite lookup_insert_ne by done. unfold h1.
      rewrite lookup_insert_eq. eauto.
    + rewrite lookup_insert_eq. eauto.
  - cbn. rewrite lookup_insert_ne by done. apply lookup_insert_eq.
  - cbn. apply lookup_insert_eq.
  - cbn. etrans; [apply (insert_subseteq _ r false Hr)|].
    by apply insert_subseteq.
Qed.

(** ** Merge patches *)


(** * How the two conversions compose *)

(** The copy puts every block into a cell that was not in use. *)
Lemma copy_blocks_new_cells {O B B'} (conv : B → B') (m : gmap positive B)
    (ps : list ptr) (s : store O B') :
  Forall (allocated m) ps →
  ∃ qs h,
    copy_blocks conv m ps s = Ret qs (Store (out s) h) ∧
    cells s ⊆ h ∧
    Forall (λ q, ∀ l, q = Some l → cells s !! l = None ∧ is_Some (h !! l)) qs ∧
    load h <$> qs = (λ p, conv <$> load m p) <$> ps.
Proof.
  intros Hall. revert s.
  induction Hall as [|p ps Hp _ IH]; intros s.
  - exists [], (cells s). by destruct s.
  - destruct p as [l|]; cbn [copy_blocks].
    + destruct Hp as [b Hb].
      rewrite bind_run, bind_run, deref_run. cbn [load mbind option_bind].
      rewrite Hb. cbn [new].
      set (l' := fresh (dom (cells s))).
      assert (cells s !! l' = None) as Hl' by apply fresh_cell_unused.
      destruct (IH (Store (out s) (<[l' := conv b]> (cells s))))
        as (qs & h & Hrun & Hsub & Hnew & Hqs).
      rewrite bind_run, Hrun. cbn in *.
      assert (h !! l' = Some (conv b)) as Hh.
      { eapply lookup_weaken; [|exact Hsub]. apply lookup_insert_eq. }
      exists (Some l' :: qs), h. split_and!; [done| | |].
      * etrans; [|exact Hsub]. by apply insert_subseteq.
      * constructor.
        -- intros ? [= <-]. eauto.
        -- eapply Forall_impl; [exact Hnew|]. intros q Hq l0 ->.
           destruct (Hq l0 eq_refl) as [Hnone Hsome]. split; [|done].
           by apply lookup_insert_None in Hnone as [? _].
      * cbn. rewrite Hb, Hh. by f_equal.
    + rewrite bind_run. run_go.
      destruct (IH s) as (qs & h & Hrun & Hsub & Hnew & Hqs).
      rewrite Hrun. exists (None :: qs), h. split_and!; [done..| |].
      * constructor; [done|exact Hnew].
      * cbn. by f_equal.
Qed.

(** X18: internal -> v1 -> internal, both on top of the structural copy and
    with the singular field of the v1 output allocated by the caller: when
    the first internal block has a non-empty address range, what comes back
    is the list of that one address range; the blocks after the first are
    dropped, because the copied first block and the singular block are two
    different pointers. *)
Theorem X18_round_trip_keeps_first_block in_ m s l0 rest b l b0 :
  Forall (allocated m) (networking.IPBlocks in_) →
  networking.IPBlocks in_ = Some l0 :: rest →
  m !! l0 = Some b →
  networking.CIDR b ≠ EmptyString →
  v1.ipBlock (out s) = Some l →
  cells s !! l = Some b0 →
  observe_networking (round_trip in_ m s)
    = Some (None, [Some (networking.CIDR b)]).
Proof.
  intros Hall Hl Hb Hc Hp Hcell.
  destruct (copy_blocks_new_cells Convert_networking_IPBlock_To_v1_IPBlock
              m _ s Hall) as (qs & h & Hcopy & Hsub & Hnew & Hqs).
  set (s1 := Store {| v1.ipBlock := v1.ipBlock (out s); v1.ipBlocks := qs |} h).
  assert (structural_copy_networking_To_v1 in_ m s = Ret None s1) as Hbase.
  { unfold structural_copy_networking_To_v1. by rewrite bind_run, Hcopy. }
  rewrite Hl in Hqs. destruct qs as [|q0 qs]; [done|].
  cbn in Hqs. rewrite Hb in Hqs. injection Hqs as Hq0 Hqs.
  destruct q0 as [lq|]; [|done]. cbn in Hq0.
  apply Forall_cons in Hnew as [Hnew0 Hnew].
  destruct (Hnew0 lq eq_refl) as [Hfresh _].
  assert (l ≠ lq) as Hne by (intros ->; congruence).
  assert (h !! l = Some b0) as Hhl by (by eapply lookup_weaken).
  unfold round_trip, networking_To_v1.
  rewrite (Convert_networking_assign _ _ _ _ s1 (Some l0) rest b l b0);
    [|done..].
  set (m' := <[l := Convert_networking_IPBlock_To_v1_IPBlock b]> (cells s1)).
  assert (Forall (allocated m') (v1.ipBlocks (out s1))) as Hall'.
  { cbn. constructor.
    - cbn. unfold m'. rewrite lookup_insert_ne by done. cbn. by rewrite Hq0.
    - eapply Forall_impl; [exact Hnew|]. intros [l'|] Hq; [|done]. cbn.
      destruct (Hq l' eq_refl) as [_ Hsome]. unfold m'.
      rewrite lookup_insert_is_Some. destruct (decide (l = l')); eauto. }
  destruct (structural_copy_v1_To_networking_spec (out s1) m'
              (Store networking.zero ∅) Hall') as (s3 & Hbase' & _ & _).
  unfold v1_To_networking. cbn [out cells].
  rewrite (Convert_v1_overlay _ _ _ _ s3
             (Convert_networking_IPBlock_To_v1_IPBlock b) Hbase').
  - unfold overwrites. cbn. rewrite Hp.
    rewrite (proj2 (nonempty_true _) Hc), bool_decide_eq_false_2; cbn.
    + by rewrite with_single_cidrs.
    + by intros [= ->].
  - cbn. rewrite Hp. cbn. unfold m'. apply lookup_insert_eq.
Qed.

Lemma X18_round_trip_keeps_first_block_witness :
  observe_networking
    (round_trip tests.two_blocks
       (tests.networking_cells "192.168.1.0/24" "192.168.2.0/24")
       tests.allocated_v1)
  = Some (None, [Some "192.168.1.0/24"]).
Proof.
  apply (X18_round_trip_keeps_first_block tests.two_blocks
           (tests.networking_cells "192.168.1.0/24" "192.168.2.0/24")
           tests.allocated_v1 1%positive [Some 2%positive]
           {| networking.CIDR := "192.168.1.0/24" |} 1%positive
           {| v1.CIDR := EmptyString |}).
  - repeat constructor; vm_compute; eauto.
  - reflexivity.
  - vm_compute; reflexivity.
  - discriminate.
  - reflexivity.
  - vm_compute; reflexivity.
Defined.
